(** * meshrender: the virtual camera ([meshrender_backup/camera.py])

    A shallow embedding of class [VirtualCamera]: its constructor, the two
    derived properties [V] (view matrix) and [P] (projection matrix) and the
    method [resize], followed by the properties of the camera specification.

    Numbers.  Python [int]s are [Z].  Python [float]s are binary64 values,
    modelled by the primitive floats of the kernel, whose operations are
    the IEEE 754 ones (round to nearest, ties to even; infinities, signed
    zeros and NaN included) as the axioms of the standard library's
    [FloatAxioms] specify them.  Python raises where IEEE does not:
    a division by zero raises [ZeroDivisionError], and the conversion of an
    int that is beyond the binary64 range raises [OverflowError]. *)

From Stdlib Require Import ZArith List String Bool Lia Floats.
Import ListNotations.

Local Open Scope string_scope.
Local Open Scope Z_scope.

(** ** Floats *)

Module Float.

(** The binary64 value nearest to the integer [n], ties to even; it is an
    infinity when [n] lies beyond the largest finite value. *)
Definition nearest (n : Z) : float :=
  SF2Prim (binary_normalize prec emax n 0 false).

(** Whether Python converts the int [n] to a float: the conversion fails
    when the nearest value is an infinity. *)
Definition convertible (n : Z) : bool := negb (is_infinity (nearest n)).

(** Both [n] and [n - 1] are convertible; [resize] converts both for every
    size it handles. *)
Definition in_range (n : Z) : bool := convertible n && convertible (n - 1).

(** [x == 0.0]; holds of both zeros. *)
Definition is_zero (x : float) : bool := (x =? 0)%float.

(** [x == y] *)
Definition eqb (x y : float) : bool := (x =? y)%float.

End Float.

Notation "x // y" := (PrimFloat.div x y)
  (at level 40, left associativity) : float_scope.
Notation "'#' n" := (Float.nearest n)
  (at level 5, n at level 0, format "'#' n") : float_scope.

(** ** Exceptions and results *)

Inductive exn : Type :=
| ValueError (msg : string)
| AttributeError (msg : string)
| NameError (name : string)
| ZeroDivisionError
| OverflowError
| LinAlgError.

Inductive result (A : Type) : Type :=
| Ok (a : A)
| Raise (e : exn).

Arguments Ok {A} a.
Arguments Raise {A} e.

Definition rbind {A B : Type} (r : result A) (k : A -> result B) : result B :=
  match r with
  | Ok a => k a
  | Raise e => Raise e
  end.

Declare Scope py_scope.
Delimit Scope py_scope with py.
Notation "x <- c ;; k" := (rbind c (fun x => k))
  (at level 61, c at next level, right associativity) : py_scope.

Definition is_ok {A : Type} (r : result A) : bool :=
  match r with Ok _ => true | Raise _ => false end.

Definition raises {A : Type} (r : result A) : bool := negb (is_ok r).

(** [float(n)] for an int [n], also the conversion of an int operand of a
    float operation: "int too large to convert to float". *)
Definition float_of_int (n : Z) : result float :=
  if Float.convertible n then Ok (#n)%float else Raise OverflowError.

(** Python's [x / y] on two floats; overflow of the quotient gives an
    infinity, not an exception. *)
Definition truediv (x y : float) : result float :=
  if Float.is_zero y then Raise ZeroDivisionError else Ok (x // y)%float.

(** Python's [x / n] for a float [x] and an int [n]: the int is converted
    first, then tested against zero. *)
Definition truediv_int (x : float) (n : Z) : result float :=
  rbind (float_of_int n) (truediv x).

(** ** 4x4 arrays *)

Definition matrix : Type := list (list float).

(** [np.zeros((r, c))] *)
Definition zeros (r c : nat) : matrix := repeat (repeat (#0)%float c) r.

Fixpoint upd {A : Type} (n : nat) (f : A -> A) (l : list A) : list A :=
  match l, n with
  | [], _ => []
  | x :: l', O => f x :: l'
  | x :: l', S n' => x :: upd n' f l'
  end.

(** [m[i][j] = v], for indices within the array. *)
Definition setitem (m : matrix) (i j : nat) (v : float) : matrix :=
  upd i (upd j (fun _ => v)) m.

(** [m[i][j]]; the default is never reached on a 4x4 array with [i, j < 4]. *)
Definition getitem (m : matrix) (i j : nat) : float :=
  nth j (nth i m []) (#0)%float.

(** [m[:r, c0:c1] *= -1] *)
Definition negate_block (r c0 c1 : nat) (m : matrix) : matrix :=
  let on_row (row : list float) :=
    map (fun '(j, x) => if (c0 <=? j)%nat && (j <? c1)%nat then (- x)%float else x)
        (combine (seq 0 (List.length row)) row) in
  map (fun '(i, row) => if (i <? r)%nat then on_row row else row)
      (combine (seq 0 (List.length m)) m).

(** ** Camera intrinsics

    [perception.CameraIntrinsics] is an external value type; the camera reads
    its fields and builds a new instance in [resize].  Its constructor takes
    the fields as they are given ([height] and [width] as ints). *)

Record CameraIntrinsics : Type := mkCameraIntrinsics {
  frame : string;
  fx : float;
  fy : float;
  cx : float;
  cy : float;
  skew : float;
  height : Z;
  width : Z
}.

(** ** Python values that reach the constructor *)

Inductive value : Type :=
| VNone
| VInt (n : Z)
| VFloat (x : float)
| VStr (s : string)
| VArray (m : matrix)
| VIntrinsics (i : CameraIntrinsics)
| VObject (cls : string).

(** ** The camera *)

Record VirtualCamera : Type := mkVirtualCamera {
  intrinsics : CameraIntrinsics;
  pose : option matrix;
  z_near : float;
  z_far : float
}.

Local Open Scope py_scope.

(** [VirtualCamera.__init__(self, intrinsics, pose, z_near, z_far)].
    The defaults [pose=None], [z_near=Z_NEAR], [z_far=Z_FAR] are filled in
    at the call; the body sees four arguments. *)
Definition __init__ (intrinsics : value) (pose : option matrix)
    (z_near z_far : float) : result VirtualCamera :=
  match intrinsics with
  | VIntrinsics i => Ok (mkVirtualCamera i pose z_near z_far)
  | _ => Raise (ValueError "intrinsics must be an object of type CameraIntrinsics")
  end.

(** Property [VirtualCamera.P]. *)
Definition P (self : VirtualCamera) : result matrix :=
  let i := intrinsics self in
  let P := zeros 4 4 in
  p00 <- truediv_int (#2 * fx i) (width i) ;;
  let P := setitem P 0 0 p00 in
  p11 <- truediv_int (#2 * fy i) (height i) ;;
  let P := setitem P 1 1 p11 in
  q02 <- truediv_int (#2 * cx i) (width i) ;;
  let P := setitem P 0 2 (#1 - q02) in
  q12 <- truediv_int (#2 * cy i) (height i) ;;
  let P := setitem P 1 2 (q12 - #1) in
  p22 <- truediv (- (z_far self + z_near self)) (z_far self - z_near self) ;;
  let P := setitem P 2 2 p22 in
  let P := setitem P 3 2 (- #1) in
  p23 <- truediv (- (#2 * z_far self * z_near self)) (z_far self - z_near self) ;;
  let P := setitem P 2 3 p23 in
  Ok P.

(** ** Names

    A name is looked up in the locals of the running function, then in the
    globals of the module, where [camera.py] binds [np], [CameraIntrinsics],
    [Z_NEAR], [Z_FAR] and [VirtualCamera]; the builtins, searched last,
    hold none of the names that [V] loads.  A name bound nowhere raises
    [NameError]. *)

Definition module_names : list string :=
  ["np"; "CameraIntrinsics"; "Z_NEAR"; "Z_FAR"; "VirtualCamera"].

Fixpoint lookup (x : string) (env : list (string * value)) : option value :=
  match env with
  | [] => None
  | (y, v) :: env' => if String.eqb x y then Some v else lookup x env'
  end.

Definition load_name (locals : list (string * value)) (x : string) : result value :=
  match lookup x locals with
  | Some v => Ok v
  | None =>
      if existsb (String.eqb x) module_names then Ok (VObject x)
      else Raise (NameError x)
  end.

(** [self.pose.copy()]: [None] has no attribute [copy]. *)
Definition pose_copy (p : option matrix) : result matrix :=
  match p with
  | Some m => Ok m
  | None => Raise (AttributeError "'NoneType' object has no attribute 'copy'")
  end.

(** The locals of [V] once line 50 has run. *)
Definition V_locals (V_inv : matrix) : list (string * value) :=
  [("self", VObject "VirtualCamera"); ("V_inv", VArray V_inv)].

Section View.

(** [np.linalg.inv], applied to whatever object it is handed. *)
Variable linalg_inv : value -> result matrix.

(** Property [VirtualCamera.V]. *)
Definition V (self : VirtualCamera) : result matrix :=
  V_inv <- pose_copy (pose self) ;;
  let V_inv := negate_block 3 1 3 V_inv in
  arg <- load_name (V_locals V_inv) "V_inv_GL" ;;
  V <- linalg_inv arg ;;
  Ok V.

End View.

(** The intrinsics that [resize] computes (lines 83-101); nothing is
    assigned to [self] before they are complete. *)
Definition scaled_intrinsics (self : VirtualCamera) (new_width new_height : Z)
    : result CameraIntrinsics :=
  let i := intrinsics self in
  fw <- float_of_int new_width ;;
  x_scale <- truediv_int fw (width i) ;;
  fh <- float_of_int new_height ;;
  y_scale <- truediv_int fh (height i) ;;
  fw1 <- float_of_int (width i - 1) ;;
  center_x <- truediv_int fw1 2 ;;
  fh1 <- float_of_int (height i - 1) ;;
  center_y <- truediv_int fh1 2 ;;
  let orig_cx_diff := (cx i - center_x)%float in
  let orig_cy_diff := (cy i - center_y)%float in
  fnw1 <- float_of_int (new_width - 1) ;;
  scaled_center_x <- truediv_int fnw1 2 ;;
  fnh1 <- float_of_int (new_height - 1) ;;
  scaled_center_y <- truediv_int fnh1 2 ;;
  let cx := (scaled_center_x + x_scale * orig_cx_diff)%float in
  let cy := (scaled_center_y + y_scale * orig_cy_diff)%float in
  let fx := (fx i * x_scale)%float in
  let fy := (fy i * x_scale)%float in
  Ok (mkCameraIntrinsics (frame i) fx fy cx cy (skew i) new_height new_width).

(** [VirtualCamera.resize(self, new_width, new_height)]: the outcome of the
    call and the camera after it. *)
Definition resize (new_width new_height : Z) (self : VirtualCamera)
    : result unit * VirtualCamera :=
  match scaled_intrinsics self new_width new_height with
  | Ok scaled =>
      (Ok tt, mkVirtualCamera scaled (pose self) (z_near self) (z_far self))
  | Raise e => (Raise e, self)
  end.

(** Assignment [camera.pose = m] by the owning scene. *)
Definition set_pose (m : option matrix) (self : VirtualCamera) : VirtualCamera :=
  mkVirtualCamera (intrinsics self) m (z_near self) (z_far self).


(** A caller resizing the window several times in a row, as a scene does on
    window events; the calls stop at the first one that raises. *)
Fixpoint resize_all (sizes : list (Z * Z)) (self : VirtualCamera)
    : result unit * VirtualCamera :=
  match sizes with
  | [] => (Ok tt, self)
  | (w, h) :: rest =>
      match resize w h self with
      | (Ok _, self') => resize_all rest self'
      | (Raise e, self') => (Raise e, self')
      end
  end.

(** ** Sample values *)

(** The float written [n/d], as Python evaluates the quotient of the two
    ints. *)
Definition q (n : Z) (d : positive) : float := (#n // #(Zpos d))%float.

Definition identity4 : matrix :=
  [[q 1 1; q 0 1; q 0 1; q 0 1];
   [q 0 1; q 1 1; q 0 1; q 0 1];
   [q 0 1; q 0 1; q 1 1; q 0 1];
   [q 0 1; q 0 1; q 0 1; q 1 1]].

Definition vga : CameraIntrinsics :=
  mkCameraIntrinsics "camera" (q 500 1) (q 600 1) (q 320 1) (q 240 1) (q 0 1) 480 640.

Definition vga_camera : VirtualCamera :=
  mkVirtualCamera vga (Some identity4) (q 1 10) (q 10 1).

(** A camera whose viewport was collapsed to zero width by [resize]. *)
Definition collapsed_camera : VirtualCamera := snd (resize 0 480 vga_camera).

(** A camera whose intrinsics carry a width beyond the binary64 range. *)
Definition huge_camera : VirtualCamera :=
  mkVirtualCamera
    (mkCameraIntrinsics "camera" (q 500 1) (q 600 1) (q 320 1) (q 240 1) (q 0 1)
       480 (10 ^ 400))
    None (q 1 10) (q 10 1).

(** A camera whose principal point sits on the geometric centre. *)
Definition centred_camera : VirtualCamera :=
  mkVirtualCamera
    (mkCameraIntrinsics "camera" (q 500 1) (q 600 1) (q 639 2) (q 479 2) (q 0 1) 480 640)
    None (q 1 10) (q 10 1).


(** Validity of an intrinsics argument in the words of the specification
    (non-null, positive width and height), to be compared with the test
    that [__init__] makes. *)
Definition valid_intrinsics (v : value) : bool :=
  match v with
  | VIntrinsics i => (0 <? width i) && (0 <? height i)
  | _ => false
  end.

(** [isinstance(v, CameraIntrinsics)] *)
Definition isinstance_intrinsics (v : value) : bool :=
  match v with
  | VIntrinsics _ => true
  | _ => false
  end.



(** The four sizes that [resize] handles are all in range. *)
Definition sizes_in_range (self : VirtualCamera) (new_width new_height : Z) : bool :=
  Float.in_range new_width && Float.in_range new_height &&
  Float.in_range (width (intrinsics self)) &&
  Float.in_range (height (intrinsics self)).

(** The numbers of the IEEE specification that are neither a zero nor
    NaN. *)
Definition nonzero_number (x : spec_float) : bool :=
  match x with
  | S754_finite _ _ _ | S754_infinity _ => true
  | S754_zero _ | S754_nan => false
  end.

(** The zeros and the finite numbers. *)
Definition finite_number (x : spec_float) : bool :=
  match x with
  | S754_finite _ _ _ | S754_zero _ => true
  | S754_infinity _ | S754_nan => false
  end.

Abbreviation emin64 := (SpecFloat.emin prec emax).

(** * Properties *)

(** ** Binary64 arithmetic

    Facts of IEEE arithmetic that the properties below rest on, derived
    from the specification of the primitive operations. *)

Section FloatFacts.

Local Open Scope float_scope.

Lemma neg_neg (x : float) : - - x = x.
Proof.
  apply Prim2SF_inj. rewrite !opp_spec.
  destruct (Prim2SF x) as [s | s | | s m e]; cbn; now rewrite ?negb_involutive.
Qed.

Lemma mul_comm (x y : float) : x * y = y * x.
Proof.
  apply Prim2SF_inj. rewrite !mul_spec. unfold SF64mul.
  destruct (Prim2SF x) as [sx | sx | | sx mx ex],
           (Prim2SF y) as [sy | sy | | sy my ey];
    cbn [SFmul]; rewrite ?(xorb_comm sx sy); try reflexivity.
  now rewrite (Pos.mul_comm mx my), (Z.add_comm ex ey).
Qed.

Lemma SFopp_binary_round_aux (s : bool) (m e : Z) (l : location) :
  SFopp (binary_round_aux prec emax s m e l)
  = binary_round_aux prec emax (negb s) m e l.
Proof.
  unfold binary_round_aux.
  destruct (shr_fexp prec emax m e l) as [mrs' e'].
  destruct (shr_fexp prec emax _ e' loc_Exact) as [mrs'' e''].
  destruct (shr_m mrs'') as [| p | p]; try reflexivity.
  destruct (e'' <=? emax - prec)%Z; reflexivity.
Qed.

Lemma neg_mul_l (x y : float) : - (x * y) = - x * y.
Proof.
  apply Prim2SF_inj. rewrite opp_spec, !mul_spec, opp_spec. unfold SF64mul.
  destruct (Prim2SF x) as [sx | sx | | sx mx ex],
           (Prim2SF y) as [sy | sy | | sy my ey];
    cbn [SFmul SFopp]; rewrite ?negb_xorb_l; try reflexivity.
  now rewrite SFopp_binary_round_aux, negb_xorb_l.
Qed.

End FloatFacts.

(** *** Rounding never cancels a number that is above the smallest
    exponent *)

Section Rounding.

Local Open Scope Z_scope.

Lemma digits2_bounds (m : positive) :
  2 ^ (Zpos (digits2_pos m) - 1) <= Zpos m < 2 ^ Zpos (digits2_pos m).
Proof.
  induction m as [m IH | m IH |]; cbn [digits2_pos].
  - rewrite Pos2Z.inj_succ.
    replace (Z.succ (Zpos (digits2_pos m)) - 1) with (Z.succ (Zpos (digits2_pos m) - 1)) by lia.
    rewrite !Z.pow_succ_r by lia. lia.
  - rewrite Pos2Z.inj_succ.
    replace (Z.succ (Zpos (digits2_pos m)) - 1) with (Z.succ (Zpos (digits2_pos m) - 1)) by lia.
    rewrite !Z.pow_succ_r by lia. lia.
  - cbn. lia.
Qed.

Lemma digits2_log2 (m : positive) :
  Zpos (digits2_pos m) = Z.log2 (Zpos m) + 1.
Proof.
  pose proof (digits2_bounds m) as [Hlo Hhi].
  symmetry. rewrite (Z.log2_unique (Zpos m) (Zpos (digits2_pos m) - 1)); [lia | lia |].
  split; [exact Hlo|].
  replace (Z.succ (Zpos (digits2_pos m) - 1)) with (Zpos (digits2_pos m)) by lia.
  exact Hhi.
Qed.

Lemma iter_pos_iter {A : Type} (f : A -> A) (p : positive) (x : A) :
  iter_pos f p x = Pos.iter f x p.
Proof.
  revert x. induction p as [p IH | p IH |]; intro x; cbn.
  - rewrite !IH. now rewrite <- !Pos.iter_swap.
  - now rewrite !IH.
  - reflexivity.
Qed.

Lemma shr_1_m (r : shr_record) :
  0 <= shr_m r -> shr_m (shr_1 r) = shr_m r / 2.
Proof.
  destruct r as [m r s]. cbn [shr_m]. intro Hm.
  destruct m as [| [p | p |] | p]; cbn [shr_1 shr_m]; try lia; try reflexivity.
  - apply Z.div_unique with 1; lia.
  - apply Z.div_unique with 0; lia.
Qed.

Lemma iter_shr_1_m (p : positive) (r : shr_record) :
  0 <= shr_m r ->
  shr_m (iter_pos shr_1 p r) = shr_m r / 2 ^ Zpos p.
Proof.
  intro Hm. rewrite iter_pos_iter.
  induction p as [| p IH] using Pos.peano_ind.
  - cbn [Pos.iter]. rewrite shr_1_m by exact Hm. reflexivity.
  - rewrite Pos.iter_succ, shr_1_m.
    + rewrite IH, Pos2Z.inj_succ, Z.pow_succ_r by lia.
      rewrite Z.div_div by lia. f_equal. lia.
    + rewrite IH. apply Z.div_pos; lia.
Qed.

Lemma shr_record_of_loc_m (m : Z) (l : location) :
  shr_m (shr_record_of_loc m l) = m.
Proof. destruct l as [| []]; reflexivity. Qed.

(** A positive mantissa at an exponent not below [emin] keeps a positive
    mantissa when it is shifted to its canonical exponent. *)
Lemma shr_fexp_positive (m e : Z) (l : location) :
  0 < m -> emin64 <= e ->
  0 < shr_m (fst (shr_fexp prec emax m e l)) /\
  emin64 <= snd (shr_fexp prec emax m e l).
Proof.
  intros Hm He. unfold shr_fexp, shr.
  destruct m as [| p | p]; try lia. cbn [Zdigits2].
  pose proof (digits2_bounds p) as [Hlo _].
  set (d := Zpos (digits2_pos p)) in *.
  destruct (fexp prec emax (d + e) - e) as [| n | n] eqn:En; cbn [fst snd];
    rewrite ?shr_record_of_loc_m; try (split; lia).
  unfold fexp, SpecFloat.emin, prec, emax in *.
  assert (Hn : Zpos n = d - 53) by lia.
  rewrite iter_shr_1_m by (rewrite shr_record_of_loc_m; lia).
  rewrite shr_record_of_loc_m. split; [|lia].
  apply Z.lt_le_trans with (2 ^ 52); [lia|].
  apply Z.div_le_lower_bound; [lia|].
  rewrite Hn, <- Z.pow_add_r by lia.
  replace (d - 53 + 52) with (d - 1) by lia. exact Hlo.
Qed.

Lemma round_nearest_even_ge (m : Z) (l : location) :
  m <= round_nearest_even m l <= m + 1.
Proof.
  destruct l as [| []]; cbn; try lia.
  destruct (Z.even m); lia.
Qed.

Lemma binary_round_aux_nonzero (s : bool) (m e : Z) (l : location) :
  0 < m -> emin64 <= e ->
  nonzero_number (binary_round_aux prec emax s m e l) = true.
Proof.
  intros Hm He. unfold binary_round_aux.
  pose proof (shr_fexp_positive m e l Hm He) as [Hm1 He1].
  destruct (shr_fexp prec emax m e l) as [mrs1 e1]. cbn [fst snd] in *.
  pose proof (round_nearest_even_ge (shr_m mrs1) (loc_of_shr_record mrs1)) as Hr.
  set (r := round_nearest_even _ _) in *.
  assert (Hr0 : 0 < r) by lia.
  pose proof (shr_fexp_positive r e1 loc_Exact Hr0 He1) as [Hm2 _].
  destruct (shr_fexp prec emax r e1 loc_Exact) as [mrs2 e2]. cbn [fst snd] in *.
  destruct (shr_m mrs2) as [| p | p]; try lia.
  destruct (e2 <=? emax - prec); reflexivity.
Qed.

Lemma shl_align_exponent (mx : positive) (ex ex' : Z) :
  emin64 <= ex -> emin64 <= ex' ->
  emin64 <= snd (shl_align mx ex ex').
Proof.
  intros H H'. unfold shl_align. destruct (ex' - ex); cbn; assumption.
Qed.

Lemma fexp_ge_emin (k : Z) : emin64 <= fexp prec emax k.
Proof. unfold fexp. lia. Qed.

Lemma binary_normalize_nonzero (m e : Z) (sz : bool) :
  m <> 0 -> emin64 <= e ->
  nonzero_number (binary_normalize prec emax m e sz) = true.
Proof.
  intros Hm He.
  assert (Hround : forall s p, nonzero_number (binary_round prec emax s p e) = true).
  { intros s p. unfold binary_round.
    pose proof (shl_align_exponent p e (fexp prec emax (Zpos (digits2_pos p) + e))
                  He (fexp_ge_emin _)) as Hz.
    destruct (shl_align p e _) as [mz ez]. cbn [snd] in Hz.
    apply binary_round_aux_nonzero; [lia | exact Hz]. }
  destruct m as [| p | p]; [contradiction | apply Hround | apply Hround].
Qed.

End Rounding.

(** *** A difference is zero only between equal numbers *)

Section Difference.

Local Open Scope Z_scope.

Lemma shl_align_value (mx : positive) (ex ez : Z) :
  ez <= ex ->
  Zpos (fst (shl_align mx ex ez)) = Zpos mx * 2 ^ (ex - ez).
Proof.
  intro H. unfold shl_align.
  destruct (ez - ex) as [| d | d] eqn:Ed; cbn [fst]; try lia.
  - replace (ex - ez) with 0 by lia. lia.
  - fold (shift_pos d mx). rewrite shift_pos_correct, Z.pow_pos_fold.
    replace (ex - ez) with (Zpos d) by lia. lia.
Qed.

Lemma canonical_exponent (m : positive) (e : Z) :
  bounded prec emax m e = true ->
  e = fexp prec emax (Z.log2 (Zpos m) + 1 + e).
Proof.
  unfold bounded, canonical_mantissa. intro H.
  apply andb_true_iff in H as [H _]. apply Z.eqb_eq in H.
  now rewrite digits2_log2 in H.
Qed.

(** Two canonical mantissas that denote the same number once aligned on
    the smaller exponent have the same exponent. *)
Lemma aligned_same_exponent (mx my : positive) (ex ey : Z) :
  bounded prec emax mx ex = true -> bounded prec emax my ey = true ->
  Zpos (fst (shl_align mx ex (Z.min ex ey)))
  = Zpos (fst (shl_align my ey (Z.min ex ey))) ->
  ex = ey /\ mx = my.
Proof.
  intros Hx Hy H.
  rewrite !shl_align_value in H by lia.
  apply canonical_exponent in Hx, Hy.
  assert (Hlog : Z.log2 (Zpos mx) + (ex - Z.min ex ey)
                 = Z.log2 (Zpos my) + (ey - Z.min ex ey)).
  { apply (f_equal Z.log2) in H.
    rewrite !Z.log2_mul_pow2 in H by lia. lia. }
  assert (He : ex = ey).
  { rewrite Hx, Hy. f_equal. lia. }
  split; [exact He|]. subst ey.
  rewrite Z.min_id, Z.sub_diag in H. cbn in H. lia.
Qed.

Lemma SFeqb_zero_inv (x : spec_float) :
  SFeqb x (S754_zero false) = true -> nonzero_number x = false.
Proof. destruct x as [s | [] | | [] m e]; cbn; congruence. Qed.

Lemma SFsub_zero_eqb (x y : spec_float) :
  valid_binary x = true -> valid_binary y = true ->
  SFeqb (SFsub prec emax x y) (S754_zero false) = true ->
  SFeqb x y = true.
Proof.
  intros Vx Vy H.
  destruct x as [sx | sx | | sx mx ex], y as [sy | sy | | sy my ey];
    try reflexivity;
    try discriminate H;
    try (destruct sx; discriminate H);
    try (destruct sy; discriminate H);
    try (destruct sx, sy; discriminate H).
  cbn [SFsub] in H. cbn [valid_binary] in Vx, Vy.
  apply SFeqb_zero_inv in H.
  assert (Hex : emin64 <= Z.min ex ey).
  { pose proof (canonical_exponent _ _ Vx). pose proof (canonical_exponent _ _ Vy).
    pose proof (fexp_ge_emin (Z.log2 (Zpos mx) + 1 + ex)).
    pose proof (fexp_ge_emin (Z.log2 (Zpos my) + 1 + ey)). lia. }
  set (A := Zpos (fst (shl_align mx ex (Z.min ex ey)))) in *.
  set (B := Zpos (fst (shl_align my ey (Z.min ex ey)))) in *.
  destruct (Z.eq_dec (cond_Zopp sx A - cond_Zopp sy B) 0) as [E | N].
  - assert (Hs : sx = sy /\ A = B).
    { subst A B. destruct sx, sy; cbn [cond_Zopp] in E; split; try reflexivity; lia. }
    destruct Hs as [-> HAB].
    destruct (aligned_same_exponent mx my ex ey Vx Vy HAB) as [-> ->].
    unfold SFeqb, SFcompare.
    rewrite Z.compare_refl, Pos.compare_cont_refl. now destruct sy.
  - rewrite (binary_normalize_nonzero _ _ false N Hex) in H. discriminate H.
Qed.

Local Open Scope float_scope.

(** Python's [x - y] is [0.0] only when [x == y]. *)
Lemma sub_zero_eqb (x y : float) :
  Float.is_zero (x - y) = true -> Float.eqb x y = true.
Proof.
  unfold Float.is_zero, Float.eqb. rewrite !eqb_spec, sub_spec.
  change (Prim2SF 0) with (S754_zero false).
  apply SFsub_zero_eqb; apply Prim2SF_valid.
Qed.

Lemma neq_sub_nonzero (x y : float) :
  Float.eqb x y = false -> Float.is_zero (x - y) = false.
Proof.
  intro H. destruct (Float.is_zero (x - y)) eqn:E; [|reflexivity].
  apply sub_zero_eqb in E. congruence.
Qed.

End Difference.

(** *** The nearest float of a nonzero int is not zero *)

Section Nearest.

Local Open Scope Z_scope.

Lemma log2_div_pow2 (m n : Z) :
  0 < m -> 0 <= n <= Z.log2 m -> Z.log2 (m / 2 ^ n) = Z.log2 m - n.
Proof.
  intros Hm Hn. rewrite <- Z.shiftr_div_pow2 by lia.
  rewrite Z.log2_shiftr by lia. lia.
Qed.

(** What [shr_fexp] does to a positive mantissa at an exponent not below
    [emin]: a shift by [n] places, which is 0 or leaves 53 digits. *)
Lemma shr_fexp_spec (m e : Z) (l : location) :
  0 < m -> emin64 <= e ->
  exists n : Z,
    shr_m (fst (shr_fexp prec emax m e l)) = m / 2 ^ n /\
    snd (shr_fexp prec emax m e l) = e + n /\
    n = Z.max 0 (fexp prec emax (Z.log2 m + 1 + e) - e) /\
    0 <= n <= Z.log2 m.
Proof.
  intros Hm He. unfold shr_fexp, shr.
  destruct m as [| p | p]; try lia. cbn [Zdigits2].
  rewrite digits2_log2.
  pose proof (Z.log2_nonneg (Zpos p)) as Hlog.
  destruct (fexp prec emax (Z.log2 (Zpos p) + 1 + e) - e) as [| n | n] eqn:En;
    cbn [fst snd]; rewrite ?shr_record_of_loc_m.
  - exists 0. rewrite Z.div_1_r. repeat split; lia.
  - exists (Zpos n).
    rewrite iter_shr_1_m, shr_record_of_loc_m by (rewrite shr_record_of_loc_m; lia).
    unfold fexp, SpecFloat.emin, prec, emax in *. repeat split; lia.
  - exists 0. rewrite Z.div_1_r. repeat split; lia.
Qed.

Lemma binary_round_aux_valid (s : bool) (m e : Z) (l : location) :
  0 < m -> emin64 <= e ->
  e <= fexp prec emax (Z.log2 m + 1 + e) ->
  valid_binary (binary_round_aux prec emax s m e l) = true.
Proof.
  intros Hm He Hcan. unfold binary_round_aux.
  destruct (shr_fexp_spec m e l Hm He) as (n1 & Hm1 & He1 & Hn1 & Hb1).
  destruct (shr_fexp prec emax m e l) as [mrs1 e1]. cbn [fst snd] in *.
  pose proof (round_nearest_even_ge (shr_m mrs1) (loc_of_shr_record mrs1)) as Hr.
  set (r := round_nearest_even _ _) in *.
  assert (Hlog1 : Z.log2 (shr_m mrs1) = Z.log2 m - n1)
    by (rewrite Hm1; apply log2_div_pow2; lia).
  assert (Hpos1 : 0 < shr_m mrs1).
  { rewrite Hm1. apply Z.lt_le_trans with 1; [lia|].
    apply Z.div_le_lower_bound; [lia|].
    rewrite Z.mul_1_r. apply Z.le_trans with (2 ^ Z.log2 m).
    - apply Z.pow_le_mono_r; lia.
    - apply Z.log2_spec; lia. }
  assert (Hr0 : 0 < r) by lia.
  assert (He1' : emin64 <= e1) by lia.
  assert (Hlogr : Z.log2 r = Z.log2 (shr_m mrs1) \/ Z.log2 r = Z.log2 (shr_m mrs1) + 1).
  { destruct Hr as [Hr1 Hr2].
    destruct (Z.eq_dec r (shr_m mrs1)) as [-> | Hne]; [now left|].
    replace r with (Z.succ (shr_m mrs1)) by lia.
    destruct (Z.log2_succ_or (shr_m mrs1)) as [H | H]; [right | left]; lia. }
  destruct (shr_fexp_spec r e1 loc_Exact Hr0 He1') as (n2 & Hm2 & He2 & Hn2 & Hb2).
  destruct (shr_fexp prec emax r e1 loc_Exact) as [mrs2 e2]. cbn [fst snd] in *.
  assert (Hlog2 : Z.log2 (shr_m mrs2) = Z.log2 r - n2)
    by (rewrite Hm2; apply log2_div_pow2; lia).
  assert (Hpos2 : 0 < shr_m mrs2).
  { rewrite Hm2. apply Z.lt_le_trans with 1; [lia|].
    apply Z.div_le_lower_bound; [lia|].
    rewrite Z.mul_1_r. apply Z.le_trans with (2 ^ Z.log2 r).
    - apply Z.pow_le_mono_r; lia.
    - apply Z.log2_spec; lia. }
  destruct (shr_m mrs2) as [| p | p] eqn:Ep; try lia.
  destruct (e2 <=? emax - prec) eqn:Ee; [|reflexivity].
  cbn [valid_binary]. unfold bounded, canonical_mantissa.
  rewrite Ee, andb_true_r, digits2_log2. apply Z.eqb_eq.
  unfold fexp, SpecFloat.emin, prec, emax in *. lia.
Qed.

Lemma binary_round_valid (s : bool) (m : positive) (e : Z) :
  emin64 <= e -> valid_binary (binary_round prec emax s m e) = true.
Proof.
  intro He. unfold binary_round. rewrite digits2_log2.
  pose proof (Z.log2_nonneg (Zpos m)) as Hlog.
  set (t := fexp prec emax (Z.log2 (Zpos m) + 1 + e)).
  assert (Ht : emin64 <= t) by apply fexp_ge_emin.
  destruct (Z_lt_le_dec t e) as [Hlt | Hle].
  - pose proof (shl_align_value m e t ltac:(lia)) as Hv.
    assert (Hsnd : snd (shl_align m e t) = t).
    { unfold shl_align. destruct (t - e) eqn:E; cbn; lia. }
    destruct (shl_align m e t) as [mz ez]. cbn [fst snd] in *. subst ez.
    apply binary_round_aux_valid; [lia | exact Ht |].
    rewrite Hv, Z.log2_mul_pow2 by lia.
    replace (e - t + Z.log2 (Zpos m) + 1 + t) with (Z.log2 (Zpos m) + 1 + e) by lia.
    fold t. lia.
  - assert (Hsame : shl_align m e t = (m, e)).
    { unfold shl_align. destruct (t - e) eqn:E; try reflexivity. lia. }
    rewrite Hsame. apply binary_round_aux_valid; [lia | exact He | exact Hle].
Qed.

Lemma binary_normalize_valid (m e : Z) (sz : bool) :
  emin64 <= e -> valid_binary (binary_normalize prec emax m e sz) = true.
Proof.
  intro He. destruct m as [| p | p]; cbn [binary_normalize];
    [reflexivity | apply binary_round_valid | apply binary_round_valid]; exact He.
Qed.

Lemma Prim2SF_nearest (n : Z) :
  Prim2SF (Float.nearest n) = binary_normalize prec emax n 0 false.
Proof.
  unfold Float.nearest. apply Prim2SF_SF2Prim.
  apply binary_normalize_valid. unfold SpecFloat.emin, prec, emax. lia.
Qed.

Lemma nonzero_number_SFeqb (x : spec_float) :
  nonzero_number x = true -> SFeqb x (S754_zero false) = false.
Proof. destruct x as [s | [] | | [] m e]; cbn; congruence. Qed.

(** [float(n) == 0.0] fails for every int [n] other than 0. *)
Lemma nearest_nonzero (n : Z) : n <> 0 -> Float.is_zero (Float.nearest n) = false.
Proof.
  intro Hn. unfold Float.is_zero. rewrite eqb_spec, Prim2SF_nearest.
  change (Prim2SF 0) with (S754_zero false).
  apply nonzero_number_SFeqb, binary_normalize_nonzero; [exact Hn|].
  unfold SpecFloat.emin, prec, emax. lia.
Qed.

Lemma nearest_zero : Float.is_zero (Float.nearest 0) = true.
Proof. reflexivity. Qed.

(** Where the conversion starts to fail: the largest finite float is
    [2^1024 - 2^971], and the ints from [2^1024 - 2^970] on round to
    infinity, as Python's [float(n)] does before it raises. *)
Example convertible_threshold :
  Float.convertible (2 ^ 1024 - 2 ^ 970 - 1) = true /\
  Float.convertible (2 ^ 1024 - 2 ^ 970) = false /\
  Float.convertible (- (2 ^ 1024 - 2 ^ 970 - 1)) = true /\
  Float.convertible (- (2 ^ 1024 - 2 ^ 970)) = false /\
  Float.convertible (10 ^ 400) = false.
Proof. repeat split; vm_compute; reflexivity. Qed.

End Nearest.

(** *** Zeros in sums and products *)

Section Zeros.

Local Open Scope float_scope.

Lemma SFeqb_refl (x : spec_float) : x <> S754_nan -> SFeqb x x = true.
Proof.
  destruct x as [s | [] | | [] m e]; try reflexivity; try congruence; intros _;
    unfold SFeqb, SFcompare; now rewrite Z.compare_refl, Pos.compare_cont_refl.
Qed.

Lemma is_finite_spec (x : float) :
  is_finite x = true -> finite_number (Prim2SF x) = true.
Proof.
  unfold is_finite, is_nan, is_infinity.
  rewrite !eqb_spec, abs_spec.
  change (Prim2SF infinity) with (S754_infinity false).
  destruct (Prim2SF x) as [s | [] | | [] m e]; cbn; try reflexivity; try discriminate.
  all: unfold SFeqb, SFcompare; rewrite Z.compare_refl, Pos.compare_cont_refl; cbn;
    reflexivity.
Qed.

Lemma SFsub_diag (x : spec_float) :
  finite_number x = true -> SFsub prec emax x x = S754_zero false.
Proof.
  destruct x as [[] | s | | s m e]; try discriminate; try reflexivity.
  intros _. cbn [SFsub]. now rewrite Z.sub_diag.
Qed.

Lemma SFmul_zero_r (x : spec_float) (s : bool) :
  finite_number x = true ->
  exists s', SFmul prec emax x (S754_zero s) = S754_zero s'.
Proof.
  destruct x as [sx | sx | | sx m e]; try discriminate; intros _; cbn; eauto.
Qed.

Lemma SFadd_zero_r (x : spec_float) (s : bool) :
  x <> S754_nan -> SFeqb (SFadd prec emax x (S754_zero s)) x = true.
Proof.
  intro H. destruct x as [sx | sx | | sx m e]; try congruence.
  - destruct sx, s; reflexivity.
  - apply SFeqb_refl. discriminate.
  - apply (SFeqb_refl (S754_finite sx m e)). discriminate.
Qed.

(** A finite scale applied to the zero offset of a finite point that sits
    on its centre leaves any centre that is a number where it is. *)
Lemma centre_fixed (c' scale x c : float) :
  is_finite x = true -> is_finite scale = true -> is_nan c' = false ->
  x = c ->
  Float.eqb (c' + scale * (x - c)) c' = true.
Proof.
  intros Hx Hs Hc <-. apply is_finite_spec in Hx, Hs.
  unfold Float.eqb. rewrite eqb_spec, add_spec, mul_spec, sub_spec.
  unfold SF64add, SF64mul, SF64sub.
  rewrite (SFsub_diag _ Hx).
  destruct (SFmul_zero_r _ false Hs) as [s' ->].
  apply SFadd_zero_r.
  unfold is_nan in Hc. rewrite eqb_spec in Hc.
  intro E. rewrite E in Hc. discriminate Hc.
Qed.

End Zeros.

(** *** A quotient of numbers is a number *)

Section Quotient.

Local Open Scope Z_scope.

Lemma shr_fexp_nonneg (m e : Z) (l : location) :
  0 <= m -> 0 <= shr_m (fst (shr_fexp prec emax m e l)).
Proof.
  intro Hm. unfold shr_fexp, shr.
  destruct (fexp prec emax (Zdigits2 m + e) - e) as [| n | n]; cbn [fst];
    rewrite ?shr_record_of_loc_m; try exact Hm.
  rewrite iter_shr_1_m by (rewrite shr_record_of_loc_m; exact Hm).
  rewrite shr_record_of_loc_m. apply Z.div_pos; lia.
Qed.

Lemma binary_round_aux_not_nan (s : bool) (m e : Z) (l : location) :
  0 <= m -> binary_round_aux prec emax s m e l <> S754_nan.
Proof.
  intro Hm. unfold binary_round_aux.
  pose proof (shr_fexp_nonneg m e l Hm) as H1.
  destruct (shr_fexp prec emax m e l) as [mrs1 e1]. cbn [fst] in H1.
  pose proof (round_nearest_even_ge (shr_m mrs1) (loc_of_shr_record mrs1)) as Hr.
  set (r := round_nearest_even _ _) in *.
  pose proof (shr_fexp_nonneg r e1 loc_Exact ltac:(lia)) as H2.
  destruct (shr_fexp prec emax r e1 loc_Exact) as [mrs2 e2]. cbn [fst] in H2.
  destruct (shr_m mrs2) as [| p | p]; try discriminate; try lia.
  destruct (e2 <=? emax - prec); discriminate.
Qed.

Lemma SFdiv_finite_not_nan (x : spec_float) (s : bool) (m : positive) (e : Z) :
  x <> S754_nan -> SFdiv prec emax x (S754_finite s m e) <> S754_nan.
Proof.
  intro Hx. destruct x as [sx | sx | | sx mx ex]; try discriminate; try congruence.
  cbn [SFdiv]. unfold SFdiv_core_binary.
  set (m' := match _ with Z0 => _ | Zpos _ => _ | Zneg _ => _ end).
  assert (Hm' : 0 <= m').
  { subst m'. destruct (_ - _ - _) as [| k | k]; try lia.
    apply Z.shiftl_nonneg. lia. }
  pose proof (Z.div_pos m' (Zpos m) Hm' ltac:(lia)) as Hq.
  unfold Z.div in Hq.
  destruct (Z.div_eucl m' (Zpos m)) as [q0 r0].
  apply binary_round_aux_not_nan. exact Hq.
Qed.

Lemma binary_normalize_not_nan (n : Z) :
  binary_normalize prec emax n 0 false <> S754_nan.
Proof.
  destruct (Z.eq_dec n 0) as [-> | Hn]; [discriminate|].
  pose proof (binary_normalize_nonzero n 0 false Hn) as H.
  intro E. rewrite E in H. unfold SpecFloat.emin, prec, emax in H.
  specialize (H ltac:(lia)). discriminate H.
Qed.

Local Open Scope float_scope.

(** [n / 2] for an int [n] is never NaN. *)
Lemma half_not_nan (n : Z) : is_nan (#n // #2) = false.
Proof.
  unfold is_nan. rewrite eqb_spec, div_spec, Prim2SF_nearest.
  change (Prim2SF #2) with (S754_finite false 4503599627370496 (-51)).
  rewrite SFeqb_refl; [reflexivity|].
  apply SFdiv_finite_not_nan, binary_normalize_not_nan.
Qed.

End Quotient.

(** ** Conversions and divisions that return *)

Local Open Scope float_scope.

Lemma float_of_int_ok (n : Z) :
  Float.convertible n = true -> float_of_int n = Ok #n.
Proof. intro H. unfold float_of_int. now rewrite H. Qed.

Lemma float_of_int_overflow (n : Z) :
  Float.convertible n = false -> float_of_int n = Raise OverflowError.
Proof. intro H. unfold float_of_int. now rewrite H. Qed.

Lemma truediv_ok (x y : float) :
  Float.is_zero y = false -> truediv x y = Ok (x // y).
Proof. intro H. unfold truediv. now rewrite H. Qed.

Lemma truediv_raises (x y : float) :
  Float.is_zero y = true -> truediv x y = Raise ZeroDivisionError.
Proof. intro H. unfold truediv. now rewrite H. Qed.

Lemma truediv_int_ok (x : float) (n : Z) :
  Float.convertible n = true -> n <> 0%Z -> truediv_int x n = Ok (x // #n).
Proof.
  intros Hc Hn. unfold truediv_int. rewrite (float_of_int_ok n Hc). cbn [rbind].
  apply truediv_ok, nearest_nonzero, Hn.
Qed.

Lemma truediv_int_overflow (x : float) (n : Z) :
  Float.convertible n = false -> truediv_int x n = Raise OverflowError.
Proof.
  intro Hc. unfold truediv_int. now rewrite (float_of_int_overflow n Hc).
Qed.

Lemma truediv_int_zero (x : float) : truediv_int x 0 = Raise ZeroDivisionError.
Proof. reflexivity. Qed.

Lemma truediv_int_two (x : float) : truediv_int x 2 = Ok (x // #2).
Proof. reflexivity. Qed.

Lemma in_range_convertible (n : Z) :
  Float.in_range n = true ->
  Float.convertible n = true /\ Float.convertible (n - 1) = true.
Proof. unfold Float.in_range. intro H. now apply andb_true_iff in H. Qed.

(** ** The projection matrix *)

(** [P] as the code fills it, when no conversion and no division raises. *)
Lemma P_ok (self : VirtualCamera) :
  let i := intrinsics self in
  let zn := z_near self in
  let zf := z_far self in
  Float.convertible (width i) = true -> width i <> 0%Z ->
  Float.convertible (height i) = true -> height i <> 0%Z ->
  Float.is_zero (zf - zn) = false ->
  P self = Ok
    [[ #2 * fx i // #(width i); #0; #1 - #2 * cx i // #(width i); #0 ];
     [ #0; #2 * fy i // #(height i); #2 * cy i // #(height i) - #1; #0 ];
     [ #0; #0; - (zf + zn) // (zf - zn); - (#2 * zf * zn) // (zf - zn) ];
     [ #0; #0; - #1; #0 ]].
Proof.
  intros i zn zf Cw Hw Ch Hh Hz.
  unfold P. fold i zn zf.
  rewrite !(truediv_int_ok _ (width i) Cw Hw), !(truediv_int_ok _ (height i) Ch Hh).
  rewrite !(truediv_ok _ (zf - zn) Hz).
  reflexivity.
Qed.

(** C1 (as amended).  For every camera with [z_far != z_near] and with an
    intrinsic width and height that are nonzero and convert to float
    without overflow, reading [P] returns the 4x4 matrix with
    [P[0][0] = 2*fx/width], [P[1][1] = 2*fy/height],
    [P[0][2] = 1 - 2*cx/width], [P[1][2] = 2*cy/height - 1],
    [P[2][2] = -(z_far + z_near)/(z_far - z_near)], [P[3][2] = -1],
    [P[2][3] = -2*z_far*z_near/(z_far - z_near)] and zero everywhere else,
    every operation being the binary64 one; the skew does not occur in
    it. *)
Theorem P_entries (self : VirtualCamera) :
  let i := intrinsics self in
  let zn := z_near self in
  let zf := z_far self in
  Float.eqb zf zn = false ->
  width i <> 0%Z -> height i <> 0%Z ->
  Float.convertible (width i) = true -> Float.convertible (height i) = true ->
  P self = Ok
    [[ #2 * fx i // #(width i); #0; #1 - #2 * cx i // #(width i); #0 ];
     [ #0; #2 * fy i // #(height i); #2 * cy i // #(height i) - #1; #0 ];
     [ #0; #0; - (zf + zn) // (zf - zn); - #2 * zf * zn // (zf - zn) ];
     [ #0; #0; - #1; #0 ]].
Proof.
  intros i zn zf Hz Hw Hh Cw Ch.
  rewrite (P_ok self Cw Hw Ch Hh (neq_sub_nonzero _ _ Hz)). fold i zn zf.
  now rewrite !neg_mul_l.
Qed.

Lemma P_entries_witness :
  Float.eqb (z_far vga_camera) (z_near vga_camera) = false /\
  width vga <> 0%Z /\ height vga <> 0%Z /\
  Float.convertible (width vga) = true /\ Float.convertible (height vga) = true /\
  P vga_camera = Ok
    [[ #2 * fx vga // #640; #0; #1 - #2 * cx vga // #640; #0 ];
     [ #0; #2 * fy vga // #480; #2 * cy vga // #480 - #1; #0 ];
     [ #0; #0; - (q 10 1 + q 1 10) // (q 10 1 - q 1 10);
       - #2 * q 10 1 * q 1 10 // (q 10 1 - q 1 10) ];
     [ #0; #0; - #1; #0 ]].
Proof.
  split; [reflexivity|]. split; [discriminate|]. split; [discriminate|].
  split; [reflexivity|]. split; [reflexivity|].
  apply (P_entries vga_camera);
    [reflexivity | discriminate | discriminate | reflexivity | reflexivity].
Defined.

(** C1, counterexample.  [resize(0, 480)] returns normally and leaves a
    camera of width 0 whose clip distances differ; reading [P] on it raises
    [ZeroDivisionError] at line 62 instead of returning a matrix.  On
    intrinsics of width [10**400], nonzero, the same line raises
    [OverflowError]. *)
Lemma P_zero_width_raises :
  fst (resize 0 480 vga_camera) = Ok tt /\
  Float.eqb (z_far collapsed_camera) (z_near collapsed_camera) = false /\
  P collapsed_camera = Raise ZeroDivisionError /\
  Float.eqb (z_far huge_camera) (z_near huge_camera) = false /\
  width (intrinsics huge_camera) <> 0%Z /\
  P huge_camera = Raise OverflowError.
Proof.
  repeat split; try (vm_compute; reflexivity).
  vm_compute. discriminate.
Qed.

(** The clip entries of the specification's sample camera
    ([z_near = 0.1], [z_far = 10]): [-(10.1)/(9.9)] and [-2*10*0.1/9.9]. *)
Example P_clip_entries :
  exists m, P vga_camera = Ok m /\
    getitem m 2 2 = - (q 10 1 + q 1 10) // (q 10 1 - q 1 10) /\
    getitem m 2 3 = - (#2 * q 10 1 * q 1 10) // (q 10 1 - q 1 10).
Proof.
  eexists. split; [vm_compute; reflexivity|].
  split; vm_compute; reflexivity.
Qed.

(** C8.  [P] does not depend on the pose: two cameras that agree on
    intrinsics and clip distances have the same [P] (matrix or exception),
    whatever their poses, set or unset; assigning a pose leaves [P] as it
    was. *)
Theorem P_independent_of_pose :
  (forall (i : CameraIntrinsics) (p1 p2 : option matrix) (zn zf : float),
      P (mkVirtualCamera i p1 zn zf) = P (mkVirtualCamera i p2 zn zf)) /\
  (forall (self : VirtualCamera) (m : option matrix),
      P (set_pose m self) = P self).
Proof.
  split.
  - intros; reflexivity.
  - intros [i p zn zf] m; reflexivity.
Qed.

(** ** Resizing *)

(** With a nonzero current size and sizes in range no conversion and no
    division of [resize] raises. *)
Lemma resize_nonzero (self : VirtualCamera) (new_width new_height : Z) :
  let i := intrinsics self in
  width i <> 0%Z -> height i <> 0%Z ->
  Float.in_range (width i) = true -> Float.in_range (height i) = true ->
  Float.in_range new_width = true -> Float.in_range new_height = true ->
  resize new_width new_height self =
    (Ok tt,
     mkVirtualCamera
       (mkCameraIntrinsics (frame i)
          (fx i * (#new_width // #(width i)))
          (fy i * (#new_width // #(width i)))
          (#(new_width - 1) // #2
           + #new_width // #(width i) * (cx i - #(width i - 1) // #2))
          (#(new_height - 1) // #2
           + #new_height // #(height i) * (cy i - #(height i - 1) // #2))
          (skew i) new_height new_width)
       (pose self) (z_near self) (z_far self)).
Proof.
  intros i Hw Hh Rw Rh Rnw Rnh.
  apply in_range_convertible in Rw as [Cw Cw1], Rh as [Ch Ch1],
    Rnw as [Cnw Cnw1], Rnh as [Cnh Cnh1].
  unfold resize, scaled_intrinsics. fold i.
  rewrite (float_of_int_ok _ Cnw), (float_of_int_ok _ Cnh),
    (float_of_int_ok _ Cw1), (float_of_int_ok _ Ch1),
    (float_of_int_ok _ Cnw1), (float_of_int_ok _ Cnh1).
  cbn [rbind].
  rewrite (truediv_int_ok _ (width i) Cw Hw). cbn [rbind].
  rewrite (truediv_int_ok _ (height i) Ch Hh). cbn [rbind].
  rewrite !truediv_int_two. reflexivity.
Qed.

(** C2 (as amended).  On a camera whose intrinsics have positive width and
    height, when the old and the new sizes (and their predecessors, which
    the method converts too) are within the float range,
    [resize(new_width, new_height)] returns and replaces the intrinsics by
    a value with the new width and height, the principal point moved to
    [(new-1)/2 + (new/old)*(c_old - (old-1)/2)] on each axis, both focal
    lengths multiplied by [new_width/width], and the frame and skew it
    had; every operation is the binary64 one. *)
Theorem resize_intrinsics (self : VirtualCamera) (new_width new_height : Z) :
  let i := intrinsics self in
  (0 < width i)%Z -> (0 < height i)%Z ->
  Float.in_range (width i) = true -> Float.in_range (height i) = true ->
  Float.in_range new_width = true -> Float.in_range new_height = true ->
  resize new_width new_height self =
    (Ok tt,
     mkVirtualCamera
       (mkCameraIntrinsics (frame i)
          (fx i * (#new_width // #(width i)))
          (fy i * (#new_width // #(width i)))
          (#(new_width - 1) // #2
           + #new_width // #(width i) * (cx i - #(width i - 1) // #2))
          (#(new_height - 1) // #2
           + #new_height // #(height i) * (cy i - #(height i - 1) // #2))
          (skew i) new_height new_width)
       (pose self) (z_near self) (z_far self)).
Proof.
  intros i Hw Hh Rw Rh Rnw Rnh. apply resize_nonzero; fold i; auto; lia.
Qed.

Lemma resize_intrinsics_witness :
  (0 < width vga)%Z /\ (0 < height vga)%Z /\
  Float.in_range (width vga) = true /\ Float.in_range (height vga) = true /\
  Float.in_range 800 = true /\ Float.in_range 600 = true /\
  resize 800 600 vga_camera =
    (Ok tt,
     mkVirtualCamera
       (mkCameraIntrinsics "camera"
          (fx vga * (#800 // #640))
          (fy vga * (#800 // #640))
          (#(800 - 1) // #2 + #800 // #640 * (cx vga - #(640 - 1) // #2))
          (#(600 - 1) // #2 + #600 // #480 * (cy vga - #(480 - 1) // #2))
          (skew vga) 600 800)
       (Some identity4) (q 1 10) (q 10 1)).
Proof.
  split; [reflexivity|]. split; [reflexivity|].
  split; [reflexivity|]. split; [reflexivity|].
  split; [reflexivity|]. split; [reflexivity|].
  apply (resize_intrinsics vga_camera 800 600); reflexivity.
Defined.

(** C2, counterexample.  On the 640x480 camera, whose width and height are
    positive, [resize(10**400, 480)] raises [OverflowError] at line 83 and
    replaces nothing. *)
Lemma resize_huge_raises :
  (0 < width (intrinsics vga_camera))%Z /\ (0 < height (intrinsics vga_camera))%Z /\
  resize (10 ^ 400) 480 vga_camera = (Raise OverflowError, vga_camera).
Proof. repeat split. Qed.

(** C4 (as amended).  Resizing a camera with [width=640], [height=480],
    [cx=320], [cy=240] to 1280x960 yields [cx=640.5], [cy=480.5],
    [fx = 2*fx_old] and [fy = 2*fy_old]. *)
Theorem resize_vga_doubled (fr : string) (fx0 fy0 sk : float)
    (p : option matrix) (zn zf : float) :
  resize 1280 960
    (mkVirtualCamera (mkCameraIntrinsics fr fx0 fy0 (q 320 1) (q 240 1) sk 480 640)
       p zn zf) =
  (Ok tt,
   mkVirtualCamera
     (mkCameraIntrinsics fr (#2 * fx0) (#2 * fy0) (q 1281 2) (q 961 2) sk 960 1280)%float
     p zn zf).
Proof.
  rewrite resize_nonzero by (reflexivity || discriminate).
  cbn [intrinsics frame fx fy cx cy skew width height pose z_near z_far].
  replace (#1280 // #640) with #2 by (vm_compute; reflexivity).
  rewrite (mul_comm fx0), (mul_comm fy0).
  do 3 f_equal; vm_compute; reflexivity.
Qed.

(** C4, counterexample.  On the 640x480 camera with [cx=320], [cy=240],
    [fx=500], [fy=600] the call [resize(1280, 960)] gives [cx = 640.5], not
    640, [cy = 480.5], not 480, and [fy = 1200 = 2*fy_old], not
    [2*fx_old = 1000]. *)
Lemma resize_vga_not_centered :
  let i' := intrinsics (snd (resize 1280 960 vga_camera)) in
  fst (resize 1280 960 vga_camera) = Ok tt /\
  Float.eqb (cx i') (q 640 1) = false /\
  Float.eqb (cy i') (q 480 1) = false /\
  Float.eqb (fx i') (#2 * fx vga)%float = true /\
  Float.eqb (fy i') (#2 * fx vga)%float = false /\
  cx i' = q 1281 2 /\ cy i' = q 961 2 /\ fy i' = q 1200 1.
Proof. repeat split; vm_compute; reflexivity. Qed.




(** C9.  Whatever the arguments and the outcome, the camera after
    [resize] has the pose, [z_near] and [z_far] it had before. *)
Theorem resize_frame (self : VirtualCamera) (new_width new_height : Z) :
  let self' := snd (resize new_width new_height self) in
  pose self' = pose self /\
  z_near self' = z_near self /\
  z_far self' = z_far self.
Proof.
  unfold resize.
  destruct (scaled_intrinsics self new_width new_height); cbn; auto.
Qed.




Local Close Scope float_scope.

(** ** Construction *)

(** C6 (as amended).  [__init__] raises, with a [ValueError], exactly when
    its [intrinsics] argument is not an instance of [CameraIntrinsics]
    ([None] included); it tests neither the width and height of the
    intrinsics nor [z_near] and [z_far], whatever their order, and when it
    returns the camera holds the four arguments as given. *)
Theorem init_checks_class_only (v : value) (p : option matrix) (zn zf : float) :
  raises (__init__ v p zn zf) = negb (isinstance_intrinsics v) /\
  match v with
  | VIntrinsics i => __init__ v p zn zf = Ok (mkVirtualCamera i p zn zf)
  | _ => __init__ v p zn zf =
           Raise (ValueError "intrinsics must be an object of type CameraIntrinsics")
  end.
Proof. destruct v; split; reflexivity. Qed.

(** C6, counterexample.  The intrinsics left by [resize(0, 480)] have width
    0, so they are not valid in the specification's sense, and the
    constructor accepts them; hence raising is not equivalent to
    invalidity. *)
Lemma init_accepts_zero_width :
  let flat := VIntrinsics (intrinsics collapsed_camera) in
  width (intrinsics collapsed_camera) = 0 /\
  valid_intrinsics flat = false /\
  raises (__init__ flat None (q 1 10) (q 10 1)) = false /\
  ~ (forall (v : value) (p : option matrix) (zn zf : float),
        raises (__init__ v p zn zf) = true <-> valid_intrinsics v = false).
Proof.
  repeat split; try (vm_compute; reflexivity).
  intro H.
  destruct (H (VIntrinsics (intrinsics collapsed_camera)) None (q 1 10) (q 10 1))
    as [_ H1].
  discriminate (H1 eq_refl).
Qed.

(** ** The view matrix *)

(** C7.  On a camera whose pose is unset, reading [V] raises (the
    [AttributeError] of [None.copy()], at line 49) and returns no matrix,
    whatever [np.linalg.inv] would do. *)
Theorem V_unset_pose_raises (linalg_inv : value -> result matrix)
    (i : CameraIntrinsics) (zn zf : float) :
  V linalg_inv (mkVirtualCamera i None zn zf) =
    Raise (AttributeError "'NoneType' object has no attribute 'copy'") /\
  is_ok (V linalg_inv (mkVirtualCamera i None zn zf)) = false.
Proof. split; reflexivity. Qed.

(** C3, the code as it stands.  On a camera whose pose is set, reading [V]
    raises [NameError]: line 53 hands [np.linalg.inv] the name [V_inv_GL],
    which is bound nowhere, the reflected copy being bound to [V_inv].  No
    inverse is computed, whatever the pose and whatever [np.linalg.inv]
    does. *)
Theorem V_set_pose_raises_NameError (linalg_inv : value -> result matrix)
    (i : CameraIntrinsics) (m : matrix) (zn zf : float) :
  V linalg_inv (mkVirtualCamera i (Some m) zn zf) = Raise (NameError "V_inv_GL") /\
  load_name (V_locals (negate_block 3 1 3 m)) "V_inv_GL" = Raise (NameError "V_inv_GL") /\
  load_name (V_locals (negate_block 3 1 3 m)) "V_inv" = Ok (VArray (negate_block 3 1 3 m)).
Proof.
  assert (Hname : load_name (V_locals (negate_block 3 1 3 m)) "V_inv_GL"
                  = Raise (NameError "V_inv_GL")) by reflexivity.
  split; [|split].
  - unfold V. cbn [pose pose_copy rbind]. now rewrite Hname.
  - exact Hname.
  - reflexivity.
Qed.

(** The reflection of line 50 on the identity pose: rows 0-2 of columns 1
    and 2 change sign, the last row and the other columns stay. *)
Example negate_block_identity :
  negate_block 3 1 3 identity4 =
    [[q 1 1; (- q 0 1)%float; (- q 0 1)%float; q 0 1];
     [q 0 1; q (-1) 1; (- q 0 1)%float; q 0 1];
     [q 0 1; (- q 0 1)%float; q (-1) 1; q 0 1];
     [q 0 1; q 0 1; q 0 1; q 1 1]].
Proof. vm_compute. reflexivity. Qed.

(** * Further properties of the camera *)

(** ** Outcomes of [P] and [resize] *)

Local Open Scope float_scope.

(** A zero width or height, once the width converts, makes [P] raise
    [ZeroDivisionError] at line 62 or 63. *)
Lemma P_flat (self : VirtualCamera) :
  width (intrinsics self) = 0%Z \/
  (Float.convertible (width (intrinsics self)) = true /\
   height (intrinsics self) = 0%Z) ->
  P self = Raise ZeroDivisionError.
Proof.
  intro H. unfold P.
  destruct (Z.eq_dec (width (intrinsics self)) 0) as [Ew | Nw].
  - rewrite Ew. reflexivity.
  - destruct H as [Ew | [Cw Eh]]; [contradiction|].
    rewrite (truediv_int_ok _ _ Cw Nw). cbn [rbind].
    rewrite Eh. reflexivity.
Qed.

(** X1.  [P] returns exactly when the width and the height convert to float
    and are nonzero and the difference [z_far - z_near] is not [0.0].  It
    raises [OverflowError] only when the width or the height is beyond the
    float range, and [ZeroDivisionError] only when the width or the height
    is 0 or that difference is [0.0], which needs [z_far == z_near]. *)
Theorem P_outcome (self : VirtualCamera) :
  let i := intrinsics self in
  let dz := z_far self - z_near self in
  match P self with
  | Ok _ =>
      Float.convertible (width i) = true /\ (width i =? 0)%Z = false /\
      Float.convertible (height i) = true /\ (height i =? 0)%Z = false /\
      Float.is_zero dz = false
  | Raise e =>
      (e = OverflowError /\
       Float.convertible (width i) && Float.convertible (height i) = false) \/
      (e = ZeroDivisionError /\
       ((width i =? 0)%Z = true \/ (height i =? 0)%Z = true \/
        (Float.is_zero dz = true /\ Float.eqb (z_far self) (z_near self) = true)))
  end.
Proof.
  intros i dz.
  destruct (Float.convertible (width i)) eqn:Cw.
  2:{ unfold P. fold i. rewrite (truediv_int_overflow _ _ Cw). cbn. auto. }
  destruct (Z.eqb_spec (width i) 0) as [Ew | Nw].
  { rewrite P_flat by (left; exact Ew). right. auto. }
  destruct (Float.convertible (height i)) eqn:Ch.
  2:{ unfold P. fold i. rewrite (truediv_int_ok _ _ Cw Nw). cbn [rbind].
      rewrite (truediv_int_overflow _ _ Ch). cbn. auto. }
  destruct (Z.eqb_spec (height i) 0) as [Eh | Nh].
  { rewrite P_flat by (right; split; [exact Cw | exact Eh]). right. auto. }
  destruct (Float.is_zero dz) eqn:Ez.
  - unfold P. fold i.
    rewrite !(truediv_int_ok _ _ Cw Nw), !(truediv_int_ok _ _ Ch Nh). cbn [rbind].
    fold dz. rewrite (truediv_raises _ dz Ez). cbn [rbind].
    right. split; [reflexivity|]. right. right. split; [reflexivity|].
    apply sub_zero_eqb. exact Ez.
  - rewrite (P_ok self Cw Nw Ch Nh Ez). repeat split.
Qed.

(** A zero width or height, once what is converted before the division
    converts, makes [resize] raise [ZeroDivisionError] at line 83 or 84. *)
Lemma resize_flat (self : VirtualCamera) (new_width new_height : Z) :
  Float.convertible new_width = true ->
  width (intrinsics self) = 0%Z \/
  (Float.convertible (width (intrinsics self)) = true /\
   Float.convertible new_height = true /\
   height (intrinsics self) = 0%Z) ->
  resize new_width new_height self = (Raise ZeroDivisionError, self).
Proof.
  intros Cnw H. unfold resize, scaled_intrinsics.
  rewrite (float_of_int_ok _ Cnw). cbn [rbind].
  destruct (Z.eq_dec (width (intrinsics self)) 0) as [Ew | Nw].
  - rewrite Ew. reflexivity.
  - destruct H as [Ew | (Cw & Cnh & Eh)]; [contradiction|].
    rewrite (truediv_int_ok _ _ Cw Nw). cbn [rbind].
    rewrite (float_of_int_ok _ Cnh). cbn [rbind].
    rewrite Eh. reflexivity.
Qed.

(** Closes a goal [sizes_in_range .. = false] once one conversion is known
    to fail. *)
Ltac out_of_range H :=
  unfold sizes_in_range, Float.in_range; rewrite H;
  repeat match goal with
         | |- context [Float.convertible ?n] => destruct (Float.convertible n)
         end;
  reflexivity.

(** X2.  [resize] returns exactly when the four sizes it handles (old and
    new width and height, each with its predecessor) convert to float and
    the current width and height are nonzero; the intrinsics then carry
    the requested width and height.  Otherwise it raises [OverflowError]
    (some size is beyond the float range) or [ZeroDivisionError] (the
    current width or height is 0), and the camera is left exactly as it
    was. *)
Theorem resize_outcome (self : VirtualCamera) (new_width new_height : Z) :
  let i := intrinsics self in
  match resize new_width new_height self with
  | (Ok _, self') =>
      sizes_in_range self new_width new_height = true /\
      (width i =? 0)%Z = false /\ (height i =? 0)%Z = false /\
      width (intrinsics self') = new_width /\
      height (intrinsics self') = new_height
  | (Raise e, self') =>
      self' = self /\
      ((e = OverflowError /\ sizes_in_range self new_width new_height = false) \/
       (e = ZeroDivisionError /\ (width i =? 0)%Z || (height i =? 0)%Z = true))
  end.
Proof.
  intro i. subst i.
  destruct (Float.convertible new_width) eqn:Cnw.
  2:{ unfold resize, scaled_intrinsics. rewrite (float_of_int_overflow _ Cnw).
      cbn. split; [reflexivity|]. left. split; [reflexivity|]. out_of_range Cnw. }
  destruct (Float.convertible (width (intrinsics self))) eqn:Cw.
  2:{ unfold resize, scaled_intrinsics. rewrite (float_of_int_ok _ Cnw). cbn [rbind].
      rewrite (truediv_int_overflow _ _ Cw).
      cbn. split; [reflexivity|]. left. split; [reflexivity|]. out_of_range Cw. }
  destruct (Z.eqb_spec (width (intrinsics self)) 0) as [Ew | Nw].
  { rewrite resize_flat by (try left; assumption). auto. }
  destruct (Float.convertible new_height) eqn:Cnh.
  2:{ unfold resize, scaled_intrinsics. rewrite (float_of_int_ok _ Cnw). cbn [rbind].
      rewrite (truediv_int_ok _ _ Cw Nw). cbn [rbind].
      rewrite (float_of_int_overflow _ Cnh).
      cbn. split; [reflexivity|]. left. split; [reflexivity|]. out_of_range Cnh. }
  destruct (Float.convertible (height (intrinsics self))) eqn:Ch.
  2:{ unfold resize, scaled_intrinsics. rewrite (float_of_int_ok _ Cnw). cbn [rbind].
      rewrite (truediv_int_ok _ _ Cw Nw). cbn [rbind].
      rewrite (float_of_int_ok _ Cnh). cbn [rbind].
      rewrite (truediv_int_overflow _ _ Ch).
      cbn. split; [reflexivity|]. left. split; [reflexivity|]. out_of_range Ch. }
  destruct (Z.eqb_spec (height (intrinsics self)) 0) as [Eh | Nh].
  { rewrite resize_flat by (try (right; repeat split); assumption).
    split; [reflexivity|]. right. split; [reflexivity|]. apply orb_true_r. }
  unfold resize, scaled_intrinsics.
  rewrite (float_of_int_ok _ Cnw). cbn [rbind].
  rewrite (truediv_int_ok _ _ Cw Nw). cbn [rbind].
  rewrite (float_of_int_ok _ Cnh). cbn [rbind].
  rewrite (truediv_int_ok _ _ Ch Nh). cbn [rbind].
  destruct (Float.convertible (width (intrinsics self) - 1)) eqn:Cw1.
  2:{ rewrite (float_of_int_overflow _ Cw1).
      cbn. split; [reflexivity|]. left. split; [reflexivity|]. out_of_range Cw1. }
  rewrite (float_of_int_ok _ Cw1). cbn [rbind]. rewrite truediv_int_two. cbn [rbind].
  destruct (Float.convertible (height (intrinsics self) - 1)) eqn:Ch1.
  2:{ rewrite (float_of_int_overflow _ Ch1).
      cbn. split; [reflexivity|]. left. split; [reflexivity|]. out_of_range Ch1. }
  rewrite (float_of_int_ok _ Ch1). cbn [rbind]. rewrite truediv_int_two. cbn [rbind].
  destruct (Float.convertible (new_width - 1)) eqn:Cnw1.
  2:{ rewrite (float_of_int_overflow _ Cnw1).
      cbn. split; [reflexivity|]. left. split; [reflexivity|]. out_of_range Cnw1. }
  rewrite (float_of_int_ok _ Cnw1). cbn [rbind]. rewrite truediv_int_two. cbn [rbind].
  destruct (Float.convertible (new_height - 1)) eqn:Cnh1.
  2:{ rewrite (float_of_int_overflow _ Cnh1).
      cbn. split; [reflexivity|]. left. split; [reflexivity|]. out_of_range Cnh1. }
  rewrite (float_of_int_ok _ Cnh1). cbn [rbind]. rewrite truediv_int_two. cbn [rbind].
  cbn [intrinsics width height].
  unfold sizes_in_range, Float.in_range.
  rewrite Cnw, Cw, Cnh, Ch, Cw1, Ch1, Cnw1, Cnh1. repeat split.
Qed.

(** ** Resizes in sequence *)

(** On a camera of zero width or height every [resize] raises and assigns
    nothing. *)
Lemma resize_flat_raises (self : VirtualCamera) (a b : Z) :
  width (intrinsics self) = 0%Z \/ height (intrinsics self) = 0%Z ->
  exists e : exn,
    resize a b self = (Raise e, self) /\
    (e = ZeroDivisionError \/ e = OverflowError).
Proof.
  intro H.
  destruct (Float.convertible a) eqn:Ca.
  2:{ exists OverflowError. unfold resize, scaled_intrinsics.
      rewrite (float_of_int_overflow _ Ca). cbn. auto. }
  destruct (Z.eq_dec (width (intrinsics self)) 0) as [Ew | Nw].
  { exists ZeroDivisionError. rewrite resize_flat by (try left; assumption). auto. }
  destruct H as [Ew | Eh]; [contradiction|].
  destruct (Float.convertible (width (intrinsics self))) eqn:Cw.
  2:{ exists OverflowError. unfold resize, scaled_intrinsics.
      rewrite (float_of_int_ok _ Ca). cbn [rbind].
      rewrite (truediv_int_overflow _ _ Cw). cbn. auto. }
  destruct (Float.convertible b) eqn:Cb.
  2:{ exists OverflowError. unfold resize, scaled_intrinsics.
      rewrite (float_of_int_ok _ Ca). cbn [rbind].
      rewrite (truediv_int_ok _ _ Cw Nw). cbn [rbind].
      rewrite (float_of_int_overflow _ Cb). cbn. auto. }
  exists ZeroDivisionError.
  rewrite resize_flat by (try (right; repeat split); assumption). auto.
Qed.

(** X11.  [resize] accepts a zero width or height without complaint, and
    the camera it leaves is stuck: every later run of resizes raises at
    its first call ([ZeroDivisionError], or [OverflowError] for a size
    beyond the float range) and leaves that camera as it is, and reading
    [P] raises [ZeroDivisionError]. *)
Theorem resize_zero_absorbing (self : VirtualCamera) (new_width new_height : Z)
    (s : Z * Z) (sizes : list (Z * Z)) :
  width (intrinsics self) <> 0%Z -> height (intrinsics self) <> 0%Z ->
  sizes_in_range self new_width new_height = true ->
  new_width = 0%Z \/ new_height = 0%Z ->
  let stuck := snd (resize new_width new_height self) in
  fst (resize new_width new_height self) = Ok tt /\
  (exists e : exn,
      resize_all (s :: sizes) stuck = (Raise e, stuck) /\
      (e = ZeroDivisionError \/ e = OverflowError)) /\
  P stuck = Raise ZeroDivisionError.
Proof.
  intros Hw Hh Hr Hz stuck. subst stuck.
  unfold sizes_in_range in Hr.
  apply andb_true_iff in Hr as [Hr Rh]. apply andb_true_iff in Hr as [Hr Rw].
  apply andb_true_iff in Hr as [Rnw Rnh].
  rewrite (resize_nonzero self new_width new_height Hw Hh Rw Rh Rnw Rnh).
  cbn [fst snd]. split; [reflexivity|].
  set (stuck := mkVirtualCamera _ _ _ _).
  assert (Hflat : width (intrinsics stuck) = 0%Z \/ height (intrinsics stuck) = 0%Z)
    by exact Hz.
  split.
  - destruct s as [a b]. cbn [resize_all].
    destruct (resize_flat_raises stuck a b Hflat) as (e & He & Hkind).
    exists e. rewrite He. auto.
  - apply P_flat. cbn [stuck intrinsics width height].
    destruct Hz as [Ew | Eh]; [left; exact Ew | right].
    split; [|exact Eh]. now apply in_range_convertible in Rnw.
Qed.

Lemma resize_zero_absorbing_witness :
  let stuck := snd (resize 0 480 vga_camera) in
  width (intrinsics vga_camera) <> 0%Z /\ height (intrinsics vga_camera) <> 0%Z /\
  sizes_in_range vga_camera 0 480 = true /\
  (0 = 0 \/ 480 = 0)%Z /\
  fst (resize 0 480 vga_camera) = Ok tt /\
  (exists e : exn,
      resize_all [(640, 480); (800, 600)]%Z stuck = (Raise e, stuck) /\
      (e = ZeroDivisionError \/ e = OverflowError)) /\
  P stuck = Raise ZeroDivisionError.
Proof.
  split; [discriminate|]. split; [discriminate|]. split; [reflexivity|].
  split; [left; reflexivity|].
  apply (resize_zero_absorbing vga_camera 0 480 (640, 480)%Z [(800, 600)%Z]);
    [discriminate | discriminate | reflexivity | left; reflexivity].
Defined.



(** ** Projection after a resize *)

(** X6.  On a camera on which [P] returns, after a resize to a nonzero
    size within the float range [P] returns again, and its rows 2 and 3,
    that is the entries [P[2][2]], [P[2][3]] and [P[3][2]] built from the
    clip distances, are what they were. *)
Theorem P_after_resize (self : VirtualCamera) (new_width new_height : Z) :
  let i := intrinsics self in
  width i <> 0%Z -> height i <> 0%Z ->
  Float.eqb (z_far self) (z_near self) = false ->
  new_width <> 0%Z -> new_height <> 0%Z ->
  sizes_in_range self new_width new_height = true ->
  exists m m' : matrix,
    P self = Ok m /\
    P (snd (resize new_width new_height self)) = Ok m' /\
    nth 2 m' [] = nth 2 m [] /\ nth 3 m' [] = nth 3 m [].
Proof.
  intros i Hw Hh Hz Hnw Hnh Hr. apply neq_sub_nonzero in Hz.
  unfold sizes_in_range in Hr. fold i in Hr.
  apply andb_true_iff in Hr as [Hr Rh]. apply andb_true_iff in Hr as [Hr Rw].
  apply andb_true_iff in Hr as [Rnw Rnh].
  destruct (in_range_convertible _ Rw) as [Cw _].
  destruct (in_range_convertible _ Rh) as [Ch _].
  destruct (in_range_convertible _ Rnw) as [Cnw _].
  destruct (in_range_convertible _ Rnh) as [Cnh _].
  do 2 eexists.
  split; [apply (P_ok self Cw Hw Ch Hh Hz)|].
  rewrite (resize_nonzero self new_width new_height Hw Hh Rw Rh Rnw Rnh). cbn [snd].
  split; [apply P_ok; assumption|].
  split; reflexivity.
Qed.

Lemma P_after_resize_witness :
  width vga <> 0%Z /\ height vga <> 0%Z /\
  Float.eqb (z_far vga_camera) (z_near vga_camera) = false /\
  800%Z <> 0%Z /\ 480%Z <> 0%Z /\
  sizes_in_range vga_camera 800 480 = true /\
  exists m m' : matrix,
    P vga_camera = Ok m /\
    P (snd (resize 800 480 vga_camera)) = Ok m' /\
    nth 2 m' [] = nth 2 m [] /\ nth 3 m' [] = nth 3 m [].
Proof.
  split; [discriminate|]. split; [discriminate|]. split; [reflexivity|].
  split; [discriminate|]. split; [discriminate|]. split; [reflexivity|].
  apply (P_after_resize vga_camera 800 480);
    [discriminate | discriminate | reflexivity | discriminate | discriminate
    | reflexivity].
Defined.

Local Close Scope float_scope.

(** ** The centred principal point *)

Local Open Scope float_scope.

(** X9.  A principal point on the geometric centre stays on it: on a
    camera with nonzero width and height and sizes in the float range, if
    [cx] is finite and equal to [(width-1)/2] and the scale factor
    [new_width/width] is finite, then after the resize
    [cx == (new_width-1)/2]; likewise for [cy] with the heights, whatever
    the two scale factors. *)
Theorem resize_keeps_centre (self : VirtualCamera) (new_width new_height : Z) :
  let i := intrinsics self in
  let i' := intrinsics (snd (resize new_width new_height self)) in
  width i <> 0%Z -> height i <> 0%Z ->
  sizes_in_range self new_width new_height = true ->
  (is_finite (cx i) = true -> is_finite (#new_width // #(width i)) = true ->
   cx i = #(width i - 1) // #2 ->
   Float.eqb (cx i') (#(new_width - 1) // #2) = true) /\
  (is_finite (cy i) = true -> is_finite (#new_height // #(height i)) = true ->
   cy i = #(height i - 1) // #2 ->
   Float.eqb (cy i') (#(new_height - 1) // #2) = true).
Proof.
  intros i i' Hw Hh Hr. subst i'.
  unfold sizes_in_range in Hr. fold i in Hr.
  apply andb_true_iff in Hr as [Hr Rh]. apply andb_true_iff in Hr as [Hr Rw].
  apply andb_true_iff in Hr as [Rnw Rnh].
  rewrite (resize_nonzero self new_width new_height Hw Hh Rw Rh Rnw Rnh).
  cbn [snd intrinsics cx cy]. fold i.
  split; intros Hfin Hscale Hc;
    apply centre_fixed; auto using half_not_nan.
Qed.

Lemma resize_keeps_centre_witness :
  let i := intrinsics centred_camera in
  let i' := intrinsics (snd (resize 800 200 centred_camera)) in
  width i <> 0%Z /\ height i <> 0%Z /\
  sizes_in_range centred_camera 800 200 = true /\
  Float.eqb (cx i') (#(800 - 1) // #2) = true /\
  Float.eqb (cy i') (#(200 - 1) // #2) = true.
Proof.
  split; [discriminate|]. split; [discriminate|]. split; [reflexivity|].
  destruct (resize_keeps_centre centred_camera 800 200) as [Hx Hy];
    [discriminate | discriminate | reflexivity |].
  split; [apply Hx | apply Hy]; reflexivity.
Defined.

Local Close Scope float_scope.

(** ** The reflection of line 50 *)

Lemma nth_map_combine_seq {A B : Type} (f : nat * A -> B) (l : list A)
    (s n : nat) (d : A) (d' : B) :
  (n < List.length l)%nat ->
  nth n (map f (combine (seq s (List.length l)) l)) d' = f ((s + n)%nat, nth n l d).
Proof.
  revert s n. induction l as [| x l IH]; intros s n Hn; cbn in *.
  - lia.
  - destruct n as [| n].
    + now rewrite Nat.add_0_r.
    + rewrite IH by lia. now rewrite Nat.add_succ_r.
Qed.

Lemma map_combine_seq_twice {A : Type} (f : nat * A -> A) (l : list A) (s : nat) :
  (forall k x, f (k, f (k, x)) = x) ->
  let once := map f (combine (seq s (List.length l)) l) in
  map f (combine (seq s (List.length once)) once) = l.
Proof.
  intro Hf. revert s. induction l as [| x l IH]; intro s; cbn in *.
  - reflexivity.
  - rewrite Hf. f_equal. apply IH.
Qed.

(** X7.  [m[:r, c0:c1] *= -1] negates the entries of the first [r] rows in
    columns [c0] to [c1-1] and leaves every other entry of the array as it
    is; for the view matrix ([r=3], columns 1 and 2) the translation column
    and the bottom row are untouched. *)
Theorem negate_block_getitem (r c0 c1 : nat) (m : matrix) (i j : nat) :
  (i < List.length m)%nat -> (j < List.length (nth i m []))%nat ->
  getitem (negate_block r c0 c1 m) i j =
    if (i <? r)%nat && ((c0 <=? j)%nat && (j <? c1)%nat)
    then (- getitem m i j)%float else getitem m i j.
Proof.
  intros Hi Hj. unfold getitem, negate_block.
  rewrite (nth_map_combine_seq _ m 0 i [] [] Hi). cbn [Nat.add].
  destruct (i <? r)%nat; cbn [andb]; [|reflexivity].
  rewrite (nth_map_combine_seq _ (nth i m []) 0 j (#0)%float (#0)%float Hj).
  reflexivity.
Qed.

Lemma negate_block_getitem_witness :
  (0 < List.length identity4)%nat /\ (1 < List.length (nth 0 identity4 []))%nat /\
  getitem (negate_block 3 1 3 identity4) 0 1 =
    if (0 <? 3)%nat && ((1 <=? 1)%nat && (1 <? 3)%nat)
    then (- getitem identity4 0 1)%float else getitem identity4 0 1.
Proof.
  split; [cbn; lia|]. split; [cbn; lia|].
  apply (negate_block_getitem 3 1 3 identity4 0 1); cbn; lia.
Defined.

(** X8.  The reflection is an involution: applied twice to an array of any
    shape it gives the array back. *)
Theorem negate_block_involutive (r c0 c1 : nat) (m : matrix) :
  negate_block r c0 c1 (negate_block r c0 c1 m) = m.
Proof.
  unfold negate_block.
  apply (map_combine_seq_twice
           (fun '(i, row) =>
              if (i <? r)%nat
              then map (fun '(j, x) =>
                          if (c0 <=? j)%nat && (j <? c1)%nat then (- x)%float else x)
                       (combine (seq 0 (List.length row)) row)
              else row) m 0).
  intros k row. destruct (k <? r)%nat; [|reflexivity].
  apply (map_combine_seq_twice
           (fun '(j, x) => if (c0 <=? j)%nat && (j <? c1)%nat then (- x)%float else x)
           row 0).
  intros j x. destruct ((c0 <=? j)%nat && (j <? c1)%nat); [apply neg_neg | reflexivity].
Qed.
